(** * Ai-screen-helper: the realtime session core of [src/App.tsx]

    A shallow embedding of the session controller of [App.tsx] (state
    hooks, refs and the callbacks [addTranscription], [handleStop],
    [startScreenShare], [startAISession], [onopen], [onmessage],
    [onerror], [onclose]) together with the types of [src/types.ts].

    - React state hooks and refs are the fields of one record, [AppState].
    - A callback is a computation in the monad [M]: it reads and updates
      the [AppState], may throw a JavaScript exception, and emits the calls
      it makes on external objects (transport session, media streams,
      timers, audio nodes) as a list of [Effect]s, in program order.  The
      state reached when an exception escapes is kept, as in JavaScript.
    - External objects are named by handles; what the browser or the SDK
      returns to a callback (clock readings, decoded buffers, fresh nodes,
      random numbers, failures) is passed in as an environment record.
    - A callback runs to completion before the next event is handled:
      the [await]s inside [onmessage] and [startAISession] resume before
      any other callback runs.  [startAISession] is one step up to the
      resolution of [sessionPromise]; [onopen] follows as an event of its
      own.
    - JavaScript numbers that carry times are rationals. *)

From Stdlib Require Import List String Bool Arith ZArith NArith QArith Lia.
Import ListNotations.
Local Open Scope string_scope.
Local Open Scope list_scope.

(* ================================================================== *)
(** ** src/types.ts *)

Inductive SessionStatus : Type := IDLE | CONNECTING | ACTIVE | ERROR.

Definition SessionStatus_eqb (a b : SessionStatus) : bool :=
  match a, b with
  | IDLE, IDLE | CONNECTING, CONNECTING | ACTIVE, ACTIVE | ERROR, ERROR => true
  | _, _ => false
  end.

Inductive Sender : Type := user | model.

Module TranscriptionPart.
Record t : Type := mk { text : string; sender : Sender; timestamp : Z }.
End TranscriptionPart.

Module ClickAction.
Record t : Type := mk { x : Q; y : Q; label : string; id : string }.
End ClickAction.

(* ================================================================== *)
(** ** External objects and the inbound message shape *)

(** Streams, transport sessions, interval timers, audio contexts and
    buffer source nodes are JavaScript objects; only their identity
    matters here.  A ref cell holds [None] for [null]; every handle is
    truthy (a timer id returned by [setInterval] is a non-zero number). *)
Definition handle : Type := nat.

(** A thrown JavaScript value; [message] is empty when [err.message] is
    absent or the empty string (both are falsy in [err.message || ...]). *)
Record JsError : Type := { message : string }.

Inductive Exc (A : Type) : Type :=
| Ok (a : A)
| Throw (e : JsError).
Arguments Ok {A} a.
Arguments Throw {A} e.

(** JavaScript truthiness of a string. *)
Definition truthy (s : string) : bool := negb (String.eqb s "").

Definition truthy_opt (o : option string) : bool :=
  match o with Some s => truthy s | None => false end.

(** Web Audio [AudioBuffer]: [duration] is [length / sampleRate]. *)
Module AudioBuffer.
Record t : Type := mk { length : N; sampleRate : positive }.
Definition duration (b : t) : Q := Z.of_N (length b) # sampleRate b.
End AudioBuffer.

Module FunctionCall.
Record Args : Type := mkArgs { x : Q; y : Q; label : string }.
Record t : Type := mk { id : string; name : string; args : Args }.
End FunctionCall.

Module FunctionResponse.
Record Body : Type := mkBody { result : string }.
Record t : Type := mk { id : string; name : string; response : Body }.
End FunctionResponse.

(** The fields of [LiveServerMessage] that [onmessage] inspects.  An
    optional field that is tested for truthiness is an [option]. *)
Record Transcription : Type := { text : string }.
Record InlineData : Type := { data : option string }.
Record Part : Type := { inlineData : option InlineData }.
Record Content : Type := { parts : list Part }.
Record ServerContent : Type := {
  outputTranscription : option Transcription;
  inputTranscription : option Transcription;
  modelTurn : option Content;
  interrupted : bool
}.
Record ToolCall : Type := { functionCalls : list FunctionCall.t }.
Record LiveServerMessage : Type := {
  serverContent : option ServerContent;
  toolCall : option ToolCall
}.

(** Calls made on external objects, in program order.  [SetStatus]
    records every call of the [setStatus] state setter, so that the
    status transitions a callback goes through can be read off its log. *)
Inductive Effect : Type :=
| ClearInterval (timer : handle)
| SetInterval (timer : handle) (periodMs : Q)
| SessionClose (session : handle)
| StreamStop (stream : handle)
| SourceStop (source : handle)
| SourceStart (source : handle) (buffer : AudioBuffer.t) (when : Q)
| SetTimeout (markerId : string) (delayMs : Z)
| SendToolResponse (functionResponses : list FunctionResponse.t)
| ConsoleError
| SetStatus (s : SessionStatus).

(* ================================================================== *)
(** ** Constants of App.tsx *)

Definition FRAME_RATE : Q := 2.
Definition AUDIO_SAMPLE_RATE : positive := 24000.
Definition INPUT_SAMPLE_RATE : positive := 16000.

(* ================================================================== *)
(** ** The state of [App]: [useState] hooks and [useRef] cells *)

Inductive ViewMode : Type := raw | ai.

Record AppState : Type := {
  status : SessionStatus;
  error : option string;
  transcriptions : list TranscriptionPart.t;
  isScreenShared : bool;
  clicks : list ClickAction.t;
  isAiSpeaking : bool;
  viewMode : ViewMode;
  isCapturing : bool;
  screenStreamRef : option handle;
  micStreamRef : option handle;
  activeSessionRef : option handle;
  audioContextRef : option handle;
  outputAudioContextRef : option handle;
  nextStartTimeRef : Q;
  (** [Set<AudioBufferSourceNode>]: insertion ordered, no duplicates. *)
  sourcesRef : list handle;
  frameIntervalRef : option handle
}.

(** The state at the first render. *)
Definition initialState : AppState :=
  {| status := IDLE; error := None; transcriptions := [];
     isScreenShared := false; clicks := []; isAiSpeaking := false;
     viewMode := ai; isCapturing := false; screenStreamRef := None;
     micStreamRef := None; activeSessionRef := None;
     audioContextRef := None; outputAudioContextRef := None;
     nextStartTimeRef := 0; sourcesRef := []; frameIntervalRef := None |}.

(** Field updates. *)
Definition set_status (v : SessionStatus) (s : AppState) : AppState :=
  {| status := v; error := error s; transcriptions := transcriptions s;
     isScreenShared := isScreenShared s; clicks := clicks s;
     isAiSpeaking := isAiSpeaking s; viewMode := viewMode s;
     isCapturing := isCapturing s; screenStreamRef := screenStreamRef s;
     micStreamRef := micStreamRef s; activeSessionRef := activeSessionRef s;
     audioContextRef := audioContextRef s;
     outputAudioContextRef := outputAudioContextRef s;
     nextStartTimeRef := nextStartTimeRef s; sourcesRef := sourcesRef s;
     frameIntervalRef := frameIntervalRef s |}.

Definition set_error (v : option string) (s : AppState) : AppState :=
  {| status := status s; error := v; transcriptions := transcriptions s;
     isScreenShared := isScreenShared s; clicks := clicks s;
     isAiSpeaking := isAiSpeaking s; viewMode := viewMode s;
     isCapturing := isCapturing s; screenStreamRef := screenStreamRef s;
     micStreamRef := micStreamRef s; activeSessionRef := activeSessionRef s;
     audioContextRef := audioContextRef s;
     outputAudioContextRef := outputAudioContextRef s;
     nextStartTimeRef := nextStartTimeRef s; sourcesRef := sourcesRef s;
     frameIntervalRef := frameIntervalRef s |}.

Definition set_transcriptions (v : list TranscriptionPart.t) (s : AppState) : AppState :=
  {| status := status s; error := error s; transcriptions := v;
     isScreenShared := isScreenShared s; clicks := clicks s;
     isAiSpeaking := isAiSpeaking s; viewMode := viewMode s;
     isCapturing := isCapturing s; screenStreamRef := screenStreamRef s;
     micStreamRef := micStreamRef s; activeSessionRef := activeSessionRef s;
     audioContextRef := audioContextRef s;
     outputAudioContextRef := outputAudioContextRef s;
     nextStartTimeRef := nextStartTimeRef s; sourcesRef := sourcesRef s;
     frameIntervalRef := frameIntervalRef s |}.

Definition set_isScreenShared (v : bool) (s : AppState) : AppState :=
  {| status := status s; error := error s;
     transcriptions := transcriptions s; isScreenShared := v;
     clicks := clicks s; isAiSpeaking := isAiSpeaking s;
     viewMode := viewMode s; isCapturing := isCapturing s;
     screenStreamRef := screenStreamRef s; micStreamRef := micStreamRef s;
     activeSessionRef := activeSessionRef s;
     audioContextRef := audioContextRef s;
     outputAudioContextRef := outputAudioContextRef s;
     nextStartTimeRef := nextStartTimeRef s; sourcesRef := sourcesRef s;
     frameIntervalRef := frameIntervalRef s |}.

Definition set_clicks (v : list ClickAction.t) (s : AppState) : AppState :=
  {| status := status s; error := error s;
     transcriptions := transcriptions s; isScreenShared := isScreenShared s;
     clicks := v; isAiSpeaking := isAiSpeaking s; viewMode := viewMode s;
     isCapturing := isCapturing s; screenStreamRef := screenStreamRef s;
     micStreamRef := micStreamRef s; activeSessionRef := activeSessionRef s;
     audioContextRef := audioContextRef s;
     outputAudioContextRef := outputAudioContextRef s;
     nextStartTimeRef := nextStartTimeRef s; sourcesRef := sourcesRef s;
     frameIntervalRef := frameIntervalRef s |}.

Definition set_isAiSpeaking (v : bool) (s : AppState) : AppState :=
  {| status := status s; error := error s;
     transcriptions := transcriptions s; isScreenShared := isScreenShared s;
     clicks := clicks s; isAiSpeaking := v; viewMode := viewMode s;
     isCapturing := isCapturing s; screenStreamRef := screenStreamRef s;
     micStreamRef := micStreamRef s; activeSessionRef := activeSessionRef s;
     audioContextRef := audioContextRef s;
     outputAudioContextRef := outputAudioContextRef s;
     nextStartTimeRef := nextStartTimeRef s; sourcesRef := sourcesRef s;
     frameIntervalRef := frameIntervalRef s |}.

Definition set_isCapturing (v : bool) (s : AppState) : AppState :=
  {| status := status s; error := error s;
     transcriptions := transcriptions s; isScreenShared := isScreenShared s;
     clicks := clicks s; isAiSpeaking := isAiSpeaking s;
     viewMode := viewMode s; isCapturing := v;
     screenStreamRef := screenStreamRef s; micStreamRef := micStreamRef s;
     activeSessionRef := activeSessionRef s;
     audioContextRef := audioContextRef s;
     outputAudioContextRef := outputAudioContextRef s;
     nextStartTimeRef := nextStartTimeRef s; sourcesRef := sourcesRef s;
     frameIntervalRef := frameIntervalRef s |}.

Definition set_screenStreamRef (v : option handle) (s : AppState) : AppState :=
  {| status := status s; error := error s;
     transcriptions := transcriptions s; isScreenShared := isScreenShared s;
     clicks := clicks s; isAiSpeaking := isAiSpeaking s;
     viewMode := viewMode s; isCapturing := isCapturing s;
     screenStreamRef := v; micStreamRef := micStreamRef s;
     activeSessionRef := activeSessionRef s;
     audioContextRef := audioContextRef s;
     outputAudioContextRef := outputAudioContextRef s;
     nextStartTimeRef := nextStartTimeRef s; sourcesRef := sourcesRef s;
     frameIntervalRef := frameIntervalRef s |}.

Definition set_micStreamRef (v : option handle) (s : AppState) : AppState :=
  {| status := status s; error := error s;
     transcriptions := transcriptions s; isScreenShared := isScreenShared s;
     clicks := clicks s; isAiSpeaking := isAiSpeaking s;
     viewMode := viewMode s; isCapturing := isCapturing s;
     screenStreamRef := screenStreamRef s; micStreamRef := v;
     activeSessionRef := activeSessionRef s;
     audioContextRef := audioContextRef s;
     outputAudioContextRef := outputAudioContextRef s;
     nextStartTimeRef := nextStartTimeRef s; sourcesRef := sourcesRef s;
     frameIntervalRef := frameIntervalRef s |}.

Definition set_activeSessionRef (v : option handle) (s : AppState) : AppState :=
  {| status := status s; error := error s;
     transcriptions := transcriptions s; isScreenShared := isScreenShared s;
     clicks := clicks s; isAiSpeaking := isAiSpeaking s;
     viewMode := viewMode s; isCapturing := isCapturing s;
     screenStreamRef := screenStreamRef s; micStreamRef := micStreamRef s;
     activeSessionRef := v; audioContextRef := audioContextRef s;
     outputAudioContextRef := outputAudioContextRef s;
     nextStartTimeRef := nextStartTimeRef s; sourcesRef := sourcesRef s;
     frameIntervalRef := frameIntervalRef s |}.

Definition set_audioContextRef (v : option handle) (s : AppState) : AppState :=
  {| status := status s; error := error s;
     transcriptions := transcriptions s; isScreenShared := isScreenShared s;
     clicks := clicks s; isAiSpeaking := isAiSpeaking s;
     viewMode := viewMode s; isCapturing := isCapturing s;
     screenStreamRef := screenStreamRef s; micStreamRef := micStreamRef s;
     activeSessionRef := activeSessionRef s; audioContextRef := v;
     outputAudioContextRef := outputAudioContextRef s;
     nextStartTimeRef := nextStartTimeRef s; sourcesRef := sourcesRef s;
     frameIntervalRef := frameIntervalRef s |}.

Definition set_outputAudioContextRef (v : option handle) (s : AppState) : AppState :=
  {| status := status s; error := error s;
     transcriptions := transcriptions s; isScreenShared := isScreenShared s;
     clicks := clicks s; isAiSpeaking := isAiSpeaking s;
     viewMode := viewMode s; isCapturing := isCapturing s;
     screenStreamRef := screenStreamRef s; micStreamRef := micStreamRef s;
     activeSessionRef := activeSessionRef s;
     audioContextRef := audioContextRef s; outputAudioContextRef := v;
     nextStartTimeRef := nextStartTimeRef s; sourcesRef := sourcesRef s;
     frameIntervalRef := frameIntervalRef s |}.

Definition set_nextStartTimeRef (v : Q) (s : AppState) : AppState :=
  {| status := status s; error := error s;
     transcriptions := transcriptions s; isScreenShared := isScreenShared s;
     clicks := clicks s; isAiSpeaking := isAiSpeaking s;
     viewMode := viewMode s; isCapturing := isCapturing s;
     screenStreamRef := screenStreamRef s; micStreamRef := micStreamRef s;
     activeSessionRef := activeSessionRef s;
     audioContextRef := audioContextRef s;
     outputAudioContextRef := outputAudioContextRef s; nextStartTimeRef := v;
     sourcesRef := sourcesRef s; frameIntervalRef := frameIntervalRef s |}.

Definition set_sourcesRef (v : list handle) (s : AppState) : AppState :=
  {| status := status s; error := error s;
     transcriptions := transcriptions s; isScreenShared := isScreenShared s;
     clicks := clicks s; isAiSpeaking := isAiSpeaking s;
     viewMode := viewMode s; isCapturing := isCapturing s;
     screenStreamRef := screenStreamRef s; micStreamRef := micStreamRef s;
     activeSessionRef := activeSessionRef s;
     audioContextRef := audioContextRef s;
     outputAudioContextRef := outputAudioContextRef s;
     nextStartTimeRef := nextStartTimeRef s; sourcesRef := v;
     frameIntervalRef := frameIntervalRef s |}.

Definition set_frameIntervalRef (v : option handle) (s : AppState) : AppState :=
  {| status := status s; error := error s;
     transcriptions := transcriptions s; isScreenShared := isScreenShared s;
     clicks := clicks s; isAiSpeaking := isAiSpeaking s;
     viewMode := viewMode s; isCapturing := isCapturing s;
     screenStreamRef := screenStreamRef s; micStreamRef := micStreamRef s;
     activeSessionRef := activeSessionRef s;
     audioContextRef := audioContextRef s;
     outputAudioContextRef := outputAudioContextRef s;
     nextStartTimeRef := nextStartTimeRef s; sourcesRef := sourcesRef s;
     frameIntervalRef := v |}.

(* ================================================================== *)
(** ** The callback monad *)

Record Res (A : Type) : Type := mkRes {
  outcome : Exc A;
  final : AppState;
  effects : list Effect
}.
Arguments mkRes {A} outcome final effects.
Arguments outcome {A} r.
Arguments final {A} r.
Arguments effects {A} r.

Definition M (A : Type) : Type := AppState -> Res A.

Definition ret {A} (a : A) : M A := fun s => mkRes (Ok a) s [].

Definition bind {A B} (m : M A) (k : A -> M B) : M B :=
  fun s =>
    match m s with
    | mkRes (Ok a) s1 e1 =>
        match k a s1 with
        | mkRes o s2 e2 => mkRes o s2 (e1 ++ e2)
        end
    | mkRes (Throw e) s1 e1 => mkRes (Throw e) s1 e1
    end.

Declare Scope js_scope.
Delimit Scope js_scope with js.
Notation "x <- m ;; k" := (bind m (fun x => k))
  (at level 61, m at next level, right associativity) : js_scope.
Notation "m ;; k" := (bind m (fun _ => k))
  (at level 61, right associativity) : js_scope.
Local Open Scope js_scope.

Definition gets {A} (f : AppState -> A) : M A := fun s => mkRes (Ok (f s)) s [].
Definition modify (f : AppState -> AppState) : M unit :=
  fun s => mkRes (Ok tt) (f s) [].
Definition emit (e : Effect) : M unit := fun s => mkRes (Ok tt) s [e].
Definition throw {A} (e : JsError) : M A := fun s => mkRes (Throw e) s [].
Definition lift {A} (x : Exc A) : M A := fun s => mkRes x s [].

(** [try { body } catch (err) { handler err }] *)
Definition tryCatch (body : M unit) (handler : JsError -> M unit) : M unit :=
  fun s =>
    match body s with
    | mkRes (Ok a) s1 e1 => mkRes (Ok a) s1 e1
    | mkRes (Throw e) s1 e1 =>
        match handler e s1 with
        | mkRes o s2 e2 => mkRes o s2 (e1 ++ e2)
        end
    end.

(** [if (c) { m }] *)
Definition when (c : bool) (m : M unit) : M unit := if c then m else ret tt.

(** [for (const a of l) { f a }] *)
Fixpoint forEach {A} (l : list A) (f : A -> M unit) : M unit :=
  match l with
  | [] => ret tt
  | a :: l' => f a ;; forEach l' f
  end.

(** [setStatus]: the state setter, logged. *)
Definition setStatus (v : SessionStatus) : M unit :=
  emit (SetStatus v) ;; modify (set_status v).

Definition whenSome {A} (o : option A) (f : A -> M unit) : M unit :=
  match o with Some a => f a | None => ret tt end.

(* ================================================================== *)
(** ** addTranscription (App.tsx 56-58) *)

(** [l.slice(-n)]: the last [n] elements, all of [l] when it is shorter. *)
Definition slice_last {A} (n : nat) (l : list A) : list A :=
  skipn (List.length l - n) l.

(** [setTranscriptions(prev => [...prev.slice(-20), {text, sender,
    timestamp: Date.now()}])] *)
Definition addTranscription (text : string) (sender : Sender) (dateNow : Z)
  : M unit :=
  modify (fun s =>
    set_transcriptions
      (slice_last 20 (transcriptions s)
         ++ [TranscriptionPart.mk text sender dateNow]) s).

(* ================================================================== *)
(** ** handleStop (App.tsx 60-88) *)

(** [sourcesRef.current.forEach(s => { try { s.stop(); } catch (e) {} })]:
    the call is made on every node; whatever it throws is discarded. *)
Definition stopAllSources : M unit :=
  srcs <- gets sourcesRef ;;
  forEach srcs (fun s => emit (SourceStop s)).

Definition handleStop : M unit :=
  t <- gets frameIntervalRef ;;
  whenSome t (fun h =>
    emit (ClearInterval h) ;; modify (set_frameIntervalRef None)) ;;
  a <- gets activeSessionRef ;;
  whenSome a (fun h =>
    emit (SessionClose h) ;; modify (set_activeSessionRef None)) ;;
  sc <- gets screenStreamRef ;;
  whenSome sc (fun h =>
    emit (StreamStop h) ;; modify (set_screenStreamRef None)) ;;
  mic <- gets micStreamRef ;;
  whenSome mic (fun h =>
    emit (StreamStop h) ;; modify (set_micStreamRef None)) ;;
  stopAllSources ;;
  modify (set_sourcesRef []) ;;
  setStatus IDLE ;;
  modify (set_isScreenShared false) ;;
  modify (set_isAiSpeaking false) ;;
  modify (set_isCapturing false) ;;
  modify (set_nextStartTimeRef 0).

(* ================================================================== *)
(** ** startScreenShare (App.tsx 98-118) *)

Record ShareEnv : Type := {
  (** [await navigator.mediaDevices.getDisplayMedia(...)] *)
  getDisplayMedia : Exc handle
}.

Definition startScreenShare (env : ShareEnv) : M unit :=
  modify (set_error None) ;;
  tryCatch
    (stream <- lift (getDisplayMedia env) ;;
     modify (set_screenStreamRef (Some stream)) ;;
     modify (set_isScreenShared true))
    (fun _ =>
       modify (set_error
         (Some "Screen sharing denied or failed. Please allow access to your screen."))).

(* ================================================================== *)
(** ** startAISession (App.tsx 120-264) *)

Record StartEnv : Type := {
  (** [process.env.API_KEY] *)
  API_KEY : option string;
  (** [new GoogleGenAI({ apiKey })] *)
  newGoogleGenAI : Exc unit;
  (** [new AudioContext({ sampleRate: AUDIO_SAMPLE_RATE })], when called *)
  newOutputAudioContext : Exc handle;
  (** [if (ctx.state === 'suspended') await ctx.resume()], output side *)
  resumeOutput : Exc unit;
  (** [await navigator.mediaDevices.getUserMedia({ audio: true })] *)
  getUserMedia : Exc handle;
  (** [new AudioContext({ sampleRate: INPUT_SAMPLE_RATE })], when called *)
  newAudioContext : Exc handle;
  (** the same [resume] line, input side *)
  resumeInput : Exc unit;
  (** [await sessionPromise], the promise of [ai.live.connect(...)] *)
  connect : Exc handle
}.

(** [if (!ref.current) ref.current = new AudioContext(...);
     if (ref.current.state === 'suspended') await ref.current.resume();] *)
Definition acquireContext (ref : AppState -> option handle)
    (set : option handle -> AppState -> AppState)
    (create : Exc handle) (resume : Exc unit) : M unit :=
  c <- gets ref ;;
  match c with
  | Some _ => ret tt
  | None => h <- lift create ;; modify (set (Some h))
  end ;;
  lift resume.

Definition startFailureMessage (err : JsError) : string :=
  if truthy (message err) then message err else "Failed to start AI session.".

Definition startAISession (env : StartEnv) : M unit :=
  if negb (truthy_opt (API_KEY env)) then
    modify (set_error (Some "API Key is missing from the environment."))
  else
    setStatus CONNECTING ;;
    modify (set_error None) ;;
    tryCatch
      (lift (newGoogleGenAI env) ;;
       acquireContext outputAudioContextRef set_outputAudioContextRef
         (newOutputAudioContext env) (resumeOutput env) ;;
       micStream <- lift (getUserMedia env) ;;
       modify (set_micStreamRef (Some micStream)) ;;
       acquireContext audioContextRef set_audioContextRef
         (newAudioContext env) (resumeInput env) ;;
       session <- lift (connect env) ;;
       modify (set_activeSessionRef (Some session)))
      (fun err =>
         modify (set_error (Some (startFailureMessage err))) ;;
         setStatus IDLE).

(** *** callbacks.onopen (App.tsx 158-204) *)

Record OpenEnv : Type := {
  (** the id returned by [window.setInterval] *)
  setIntervalId : handle
}.

Definition onopen (env : OpenEnv) : M unit :=
  setStatus ACTIVE ;;
  modify (set_isCapturing true) ;;
  emit (SetInterval (setIntervalId env) (1000 / FRAME_RATE)) ;;
  modify (set_frameIntervalRef (Some (setIntervalId env))).

(** *** callbacks.onmessage (App.tsx 205-250) *)

Record MessageEnv : Type := {
  (** [Date.now()] *)
  dateNow : Z;
  (** [outputAudioContextRef.current.currentTime] *)
  currentTime : Q;
  (** [await decodeAudioData(decode(audioData), ctx, AUDIO_SAMPLE_RATE, 1)]:
      the helpers of [utils/audio-helpers] return the decoded buffer or
      throw on a malformed payload. *)
  decodeAudioData : Exc AudioBuffer.t;
  (** [ctx.createBufferSource()] *)
  createBufferSource : handle;
  (** [Math.random().toString(36).substr(2, 9)] at the k-th call *)
  randomId : nat -> string
}.

(** [Math.max] on finite numbers. *)
Definition Math_max (a b : Q) : Q := if Qle_bool a b then b else a.

(** [Set.prototype.add] *)
Definition set_add (h : handle) (l : list handle) : list handle :=
  if existsb (Nat.eqb h) l then l else l ++ [h].

(** [Set.prototype.delete] *)
Definition set_delete (h : handle) (l : list handle) : list handle :=
  filter (fun h' => negb (Nat.eqb h h')) l.

(** Lines 206-210. *)
Definition routeTranscription (msg : LiveServerMessage) (env : MessageEnv)
  : M unit :=
  match serverContent msg with
  | None => ret tt
  | Some sc =>
      match outputTranscription sc with
      | Some t => addTranscription (text t) model (dateNow env)
      | None =>
          match inputTranscription sc with
          | Some t => addTranscription (text t) user (dateNow env)
          | None => ret tt
          end
      end
  end.

(** [message.serverContent?.modelTurn?.parts[0]?.inlineData?.data] *)
Definition audioDataOf (msg : LiveServerMessage) : option string :=
  match serverContent msg with
  | None => None
  | Some sc =>
      match modelTurn sc with
      | None => None
      | Some c =>
          match parts c with
          | [] => None
          | p :: _ =>
              match inlineData p with
              | None => None
              | Some d => data d
              end
          end
      end
  end.

Definition isSome {A} (o : option A) : bool :=
  match o with Some _ => true | None => false end.

(** Lines 212-228: the playback scheduler. *)
Definition scheduleAudio (msg : LiveServerMessage) (env : MessageEnv)
  : M unit :=
  ctx <- gets outputAudioContextRef ;;
  when (truthy_opt (audioDataOf msg) && isSome ctx)
    (modify (set_isAiSpeaking true) ;;
     modify (fun s =>
       set_nextStartTimeRef (Math_max (nextStartTimeRef s) (currentTime env)) s) ;;
     audioBuffer <- lift (decodeAudioData env) ;;
     let source := createBufferSource env in
     startAt <- gets nextStartTimeRef ;;
     emit (SourceStart source audioBuffer startAt) ;;
     modify (fun s =>
       set_nextStartTimeRef
         (nextStartTimeRef s + AudioBuffer.duration audioBuffer) s) ;;
     modify (fun s => set_sourcesRef (set_add source (sourcesRef s)) s)).

(** Lines 230-235: interruption. *)
Definition handleInterrupted (msg : LiveServerMessage) : M unit :=
  when (match serverContent msg with
        | Some sc => interrupted sc
        | None => false
        end)
    (stopAllSources ;;
     modify (set_sourcesRef []) ;;
     modify (set_nextStartTimeRef 0) ;;
     modify (set_isAiSpeaking false)).

(** Lines 239-247, for one function call; [k] counts the calls of
    [Math.random] made so far by this handler. *)
Definition acknowledgment (fc : FunctionCall.t) : FunctionResponse.t :=
  FunctionResponse.mk (FunctionCall.id fc) (FunctionCall.name fc)
    (FunctionResponse.mkBody "ok").

Definition clickAnswer (fc : FunctionCall.t) (id : string) : M unit :=
  let args := FunctionCall.args fc in
  modify (fun s =>
    set_clicks
      (clicks s ++ [ClickAction.mk (FunctionCall.x args) (FunctionCall.y args)
                      (FunctionCall.label args) id]) s) ;;
  emit (SetTimeout id 4000) ;;
  emit (SendToolResponse [acknowledgment fc]).

Definition isClickAnswer (fc : FunctionCall.t) : bool :=
  String.eqb (FunctionCall.name fc) "click_answer".

(** Lines 238-248: [for (const fc of message.toolCall.functionCalls)]. *)
Fixpoint dispatchFrom (k : nat) (fcs : list FunctionCall.t)
    (env : MessageEnv) : M unit :=
  match fcs with
  | [] => ret tt
  | fc :: rest =>
      if isClickAnswer fc then
        clickAnswer fc (randomId env k) ;; dispatchFrom (S k) rest env
      else dispatchFrom k rest env
  end.

(** Lines 237-249. *)
Definition dispatchToolCalls (msg : LiveServerMessage) (env : MessageEnv)
  : M unit :=
  whenSome (toolCall msg) (fun tc => dispatchFrom 0 (functionCalls tc) env).

Definition onmessage (msg : LiveServerMessage) (env : MessageEnv) : M unit :=
  routeTranscription msg env ;;
  scheduleAudio msg env ;;
  handleInterrupted msg ;;
  dispatchToolCalls msg env.

(** [source.onended] (App.tsx 221-224) *)
Definition onended (source : handle) : M unit :=
  modify (fun s => set_sourcesRef (set_delete source (sourcesRef s)) s) ;;
  srcs <- gets sourcesRef ;;
  when (Nat.eqb (List.length srcs) 0) (modify (set_isAiSpeaking false)).

(** The [setTimeout] callback of line 243. *)
Definition onMarkerTimeout (id : string) : M unit :=
  modify (fun s =>
    set_clicks
      (filter (fun c => negb (String.eqb (ClickAction.id c) id)) (clicks s)) s).

(** *** callbacks.onerror and callbacks.onclose (App.tsx 251-256) *)

Definition onerror : M unit :=
  emit ConsoleError ;;
  modify (set_error (Some "Connection issue detected. Re-syncing...")) ;;
  handleStop.

Definition onclose : M unit := handleStop.

(* ================================================================== *)
(** ** The session control button (App.tsx 306)

    [onClick={status === SessionStatus.IDLE ? startAISession : handleStop}] *)

Definition onSessionButtonClick (env : StartEnv) : M unit :=
  s <- gets status ;;
  if SessionStatus_eqb s IDLE then startAISession env else handleStop.

(* ================================================================== *)
(** * Vocabulary of the statements

    Closed forms of what the handlers do, read-outs of the call log, and
    the concrete states and inputs used as examples. *)

(** *** Transcript window *)

(** One call of [addTranscription]: its arguments and the clock reading. *)
Definition Append : Type := (string * Sender * Z)%type.

Definition entryOf (a : Append) : TranscriptionPart.t :=
  let '(text, sender, now) := a in TranscriptionPart.mk text sender now.

Definition appendAll (l : list Append) : M unit :=
  forEach l (fun a => let '(text, sender, now) := a in
                      addTranscription text sender now).

(** Twenty-one appends, told apart by their timestamps 1..21. *)
Definition twentyOneAppends : list Append :=
  map (fun i => ("", user, Z.of_nat i)) (seq 1 21).

(** *** Teardown *)

Definition optCall (f : handle -> Effect) (o : option handle) : list Effect :=
  match o with Some h => [f h] | None => [] end.

(** The calls one teardown makes from state [s], in order. *)
Definition teardownCalls (s : AppState) : list Effect :=
  optCall ClearInterval (frameIntervalRef s)
    ++ optCall SessionClose (activeSessionRef s)
    ++ optCall StreamStop (screenStreamRef s)
    ++ optCall StreamStop (micStreamRef s)
    ++ map SourceStop (sourcesRef s)
    ++ [SetStatus IDLE].

(** The state one teardown leaves: exactly the status, the three flags,
    the clock offset and the four handles and the live set are written. *)
Definition tornDown (s : AppState) : AppState :=
  {| status := IDLE; error := error s; transcriptions := transcriptions s;
     isScreenShared := false; clicks := clicks s; isAiSpeaking := false;
     viewMode := viewMode s; isCapturing := false; screenStreamRef := None;
     micStreamRef := None; activeSessionRef := None;
     audioContextRef := audioContextRef s;
     outputAudioContextRef := outputAudioContextRef s;
     nextStartTimeRef := 0; sourcesRef := []; frameIntervalRef := None |}.

(** *** Session state machine *)

Definition emitsOnly {A} (P : Effect -> Prop) (m : M A) : Prop :=
  forall s, Forall P (effects (m s)).

Definition isStatusWrite (e : Effect) : Prop := exists v, e = SetStatus v.

(** The statuses a handler writes, in order. *)
Definition statusWrites (log : list Effect) : list SessionStatus :=
  flat_map (fun e => match e with SetStatus v => [v] | _ => [] end) log.

(** A session that is up: transport 1, microphone 2, screen 3, frame
    timer 4, contexts 5 and 6, two slots playing. *)
Definition activeExample : AppState :=
  {| status := ACTIVE; error := None; transcriptions := [];
     isScreenShared := true; clicks := []; isAiSpeaking := true;
     viewMode := ai; isCapturing := true; screenStreamRef := Some 3%nat;
     micStreamRef := Some 2%nat; activeSessionRef := Some 1%nat;
     audioContextRef := Some 6%nat; outputAudioContextRef := Some 5%nat;
     nextStartTimeRef := 3 # 2; sourcesRef := [7%nat; 8%nat];
     frameIntervalRef := Some 4%nat |}.


Definition connectionIssue : string := "Connection issue detected. Re-syncing...".



(** *** Inbound message router *)

(** The transcript entry a message contributes: output transcription
    first, input transcription otherwise. *)
Definition transcriptOf (msg : LiveServerMessage) : option (string * Sender) :=
  match serverContent msg with
  | None => None
  | Some sc =>
      match outputTranscription sc, inputTranscription sc with
      | Some t, _ => Some (text t, model)
      | None, Some t => Some (text t, user)
      | None, None => None
      end
  end.

(** [message.serverContent?.interrupted] *)
Definition interruptedOf (msg : LiveServerMessage) : bool :=
  match serverContent msg with
  | Some sc => interrupted sc
  | None => false
  end.

(** The message enters the scheduler (line 213). *)
Definition hasAudio (msg : LiveServerMessage) (s : AppState) : bool :=
  truthy_opt (audioDataOf msg) && isSome (outputAudioContextRef s).

(** The message enters the scheduler and its payload does not decode:
    the exception leaves [onmessage] at line 217. *)
Definition audioStepThrows (msg : LiveServerMessage) (env : MessageEnv)
    (s : AppState) : bool :=
  hasAudio msg s
  && match decodeAudioData env with Throw _ => true | Ok _ => false end.

(** The markers and the calls produced by the dispatch loop. *)
Fixpoint markersFrom (k : nat) (fcs : list FunctionCall.t) (env : MessageEnv)
  : list ClickAction.t :=
  match fcs with
  | [] => []
  | fc :: rest =>
      if isClickAnswer fc then
        ClickAction.mk (FunctionCall.x (FunctionCall.args fc))
          (FunctionCall.y (FunctionCall.args fc))
          (FunctionCall.label (FunctionCall.args fc)) (randomId env k)
          :: markersFrom (S k) rest env
      else markersFrom k rest env
  end.

Fixpoint callsFrom (k : nat) (fcs : list FunctionCall.t) (env : MessageEnv)
  : list Effect :=
  match fcs with
  | [] => []
  | fc :: rest =>
      if isClickAnswer fc then
        SetTimeout (randomId env k) 4000
          :: SendToolResponse [acknowledgment fc]
          :: callsFrom (S k) rest env
      else callsFrom k rest env
  end.

(** The tool responses handed to the transport, in order. *)
Definition responsesOf (log : list Effect) : list FunctionResponse.t :=
  flat_map (fun e => match e with SendToolResponse rs => rs | _ => [] end) log.

(** The calls of [sendToolResponse], each with its batch. *)
Definition sendCalls (log : list Effect) : list (list FunctionResponse.t) :=
  flat_map (fun e => match e with SendToolResponse rs => [rs] | _ => [] end) log.

(** The scheduled slots: start time and duration, in order. *)
Definition startsOf (log : list Effect) : list (Q * Q) :=
  flat_map (fun e => match e with
                     | SourceStart _ b t => [(t, AudioBuffer.duration b)]
                     | _ => []
                     end) log.

Definition routed (msg : LiveServerMessage) (env : MessageEnv) (s : AppState)
  : AppState :=
  match transcriptOf msg with
  | Some (t, sd) =>
      set_transcriptions
        (slice_last 20 (transcriptions s)
           ++ [TranscriptionPart.mk t sd (dateNow env)]) s
  | None => s
  end.

Definition dispatched (msg : LiveServerMessage) (env : MessageEnv)
    (s : AppState) : AppState :=
  match toolCall msg with
  | Some tc => set_clicks (clicks s ++ markersFrom 0 (functionCalls tc) env) s
  | None => s
  end.

Definition dispatchCalls (msg : LiveServerMessage) (env : MessageEnv)
  : list Effect :=
  match toolCall msg with
  | Some tc => callsFrom 0 (functionCalls tc) env
  | None => []
  end.

(** The state after an interruption. *)
Definition silenced (s : AppState) : AppState :=
  set_isAiSpeaking false (set_nextStartTimeRef 0 (set_sourcesRef [] s)).

(** The state after the scheduler has placed buffer [b]. *)
Definition scheduled (b : AudioBuffer.t) (env : MessageEnv) (s : AppState)
  : AppState :=
  let startAt := Math_max (nextStartTimeRef s) (currentTime env) in
  set_sourcesRef (set_add (createBufferSource env) (sourcesRef s))
    (set_nextStartTimeRef (startAt + AudioBuffer.duration b)
       (set_isAiSpeaking true s)).

(** *** Handling one message *)

Definition audioCalls (msg : LiveServerMessage) (env : MessageEnv)
    (s : AppState) : list Effect :=
  if hasAudio msg s then
    match decodeAudioData env with
    | Ok b => [SourceStart (createBufferSource env) b
                 (Math_max (nextStartTimeRef s) (currentTime env))]
    | Throw _ => []
    end
  else [].

Definition afterAudio (msg : LiveServerMessage) (env : MessageEnv)
    (s : AppState) : AppState :=
  if hasAudio msg s then
    match decodeAudioData env with
    | Ok b => scheduled b env s
    | Throw _ =>
        set_nextStartTimeRef
          (Math_max (nextStartTimeRef s) (currentTime env))
          (set_isAiSpeaking true s)
    end
  else s.

Definition afterInterrupt (msg : LiveServerMessage) (s : AppState) : AppState :=
  if interruptedOf msg then silenced s else s.

Definition interruptCalls (msg : LiveServerMessage) (s : AppState)
  : list Effect :=
  if interruptedOf msg then map SourceStop (sourcesRef s) else [].

Definition submitCall : FunctionCall.t :=
  FunctionCall.mk "abc" "click_answer" (FunctionCall.mkArgs 42 17 "Submit").

Definition submitMessage : LiveServerMessage :=
  {| serverContent := None;
     toolCall := Some {| functionCalls := [submitCall] |} |}.

(** Two invocations, one of an undeclared tool, on a message with a
    transcript line. *)
Definition mixedCalls : ToolCall :=
  {| functionCalls :=
       [FunctionCall.mk "c1" "click_answer" (FunctionCall.mkArgs 10 20 "A");
        FunctionCall.mk "c2" "scroll" (FunctionCall.mkArgs 0 0 "")] |}.

Definition mixedMessage : LiveServerMessage :=
  {| serverContent :=
       Some {| outputTranscription := Some {| text := "here" |};
               inputTranscription := None; modelTurn := None;
               interrupted := false |};
     toolCall := Some mixedCalls |}.

Definition quietEnv : MessageEnv :=
  {| dateNow := 1000; currentTime := 5; decodeAudioData := Throw {| message := "" |};
     createBufferSource := 9%nat; randomId := fun _ => "r" |}.

Definition interruptMessage : LiveServerMessage :=
  {| serverContent :=
       Some {| outputTranscription := None; inputTranscription := None;
               modelTurn := None; interrupted := true |};
     toolCall := None |}.

(** *** Aborted starts *)

(** The credential is absent, or acquiring the output audio context or
    the microphone throws. *)
Definition startAborts (env : StartEnv) (s : AppState) : Prop :=
  truthy_opt (API_KEY env) = false
  \/ (outputAudioContextRef s = None
      /\ exists e, newOutputAudioContext env = Throw e)
  \/ (exists e, resumeOutput env = Throw e)
  \/ (exists e, getUserMedia env = Throw e).

(** The microphone permission is refused. *)
Definition micDeniedEnv : StartEnv :=
  {| API_KEY := Some "k"; newGoogleGenAI := Ok tt;
     newOutputAudioContext := Ok 15%nat; resumeOutput := Ok tt;
     getUserMedia := Throw {| message := "Permission denied" |};
     newAudioContext := Ok 16%nat; resumeInput := Ok tt;
     connect := Ok 11%nat |}.

(** *** Playback scheduler *)

(** One inbound message with what the browser returns to its handler. *)
Definition Delivery : Type := (LiveServerMessage * MessageEnv)%type.

(** Messages are handled one after the other; an exception that leaves
    one handler (a rejected promise) does not stop the next.  Each result
    is paired with the clock reading of its invocation. *)
Fixpoint runMessages (l : list Delivery) (s : AppState)
  : list (Q * Res unit) :=
  match l with
  | [] => []
  | (msg, env) :: l' =>
      let r := onmessage msg env s in
      (currentTime env, r) :: runMessages l' (final r)
  end.

(** Slots [(start, duration)] placed one after the other from [lo] on:
    each starts no earlier than the end of the one before. *)
Fixpoint chained (lo : Q) (l : list (Q * Q)) : Prop :=
  match l with
  | [] => True
  | (t, d) :: r => lo <= t /\ chained (t + d) r
  end.

Fixpoint nondecreasing (l : list Q) : Prop :=
  match l with
  | a :: (b :: _) as r => a <= b /\ nondecreasing r
  | _ => True
  end.

(** An audio chunk of 24000 samples at 24000 Hz. *)
Definition oneSecond : AudioBuffer.t := AudioBuffer.mk 24000 AUDIO_SAMPLE_RATE.

Definition audioMessage : LiveServerMessage :=
  {| serverContent :=
       Some {| outputTranscription := None; inputTranscription := None;
               modelTurn :=
                 Some {| parts :=
                           [{| inlineData := Some {| data := Some "AAAA" |} |}] |};
               interrupted := false |};
     toolCall := None |}.

Definition chunkAt (now : Q) (source : handle) (decoded : Exc AudioBuffer.t)
  : Delivery :=
  (audioMessage,
   {| dateNow := 0; currentTime := now; decodeAudioData := decoded;
      createBufferSource := source; randomId := fun _ => "r" |}).

(** Three chunks: on time, late by the clock, and one that fails to
    decode, followed by a tool call. *)
Definition exampleDeliveries : list Delivery :=
  [chunkAt 1 20%nat (Ok oneSecond);
   chunkAt (7 # 2) 21%nat (Ok oneSecond);
   chunkAt 4 22%nat (Throw {| message := "bad" |});
   (submitMessage, quietEnv);
   chunkAt 4 23%nat (Ok oneSecond)].

(** *** Events *)

(** The events the controller reacts to. *)
Inductive Event : Type :=
| ShareClicked (env : ShareEnv)
| ScreenTrackEnded
| SessionButtonClicked (env : StartEnv)
| Opened (env : OpenEnv)
| MessageReceived (msg : LiveServerMessage) (env : MessageEnv)
| TransportError
| TransportClosed
| SourceEnded (source : handle)
| MarkerExpired (id : string).

Definition handleEvent (ev : Event) : M unit :=
  match ev with
  | ShareClicked env => startScreenShare env
  | ScreenTrackEnded => handleStop
  | SessionButtonClicked env => onSessionButtonClick env
  | Opened env => onopen env
  | MessageReceived msg env => onmessage msg env
  | TransportError => onerror
  | TransportClosed => onclose
  | SourceEnded source => onended source
  | MarkerExpired id => onMarkerTimeout id
  end.

(** The state after a sequence of events, first event first. *)
Definition runEvents (evs : list Event) (s : AppState) : AppState :=
  fold_left (fun s ev => final (handleEvent ev s)) evs s.

Definition preserves {A} (I : AppState -> Prop) (m : M A) : Prop :=
  forall s, I s -> I (final (m s)).

Definition notError (s : AppState) : Prop := status s <> ERROR.

(** *** Undecodable audio *)

(** What [decodeAudioData] throws on a payload with an odd number of
    bytes. *)
Definition oddByteLength : JsError :=
  {| message := "byte length of Int16Array should be a multiple of 2" |}.

(** The browser's answers to a handler whose audio payload does not
    decode. *)
Definition badAudioEnv : MessageEnv :=
  {| dateNow := 1000; currentTime := 5; decodeAudioData := Throw oddByteLength;
     createBufferSource := 9%nat; randomId := fun _ => "r" |}.

(** The audio payload of [audioMessage] together with the invocation
    [submitCall]. *)
Definition audioAndCallMessage : LiveServerMessage :=
  {| serverContent := serverContent audioMessage;
     toolCall := Some {| functionCalls := [submitCall] |} |}.

(** The audio payload of [audioMessage] on a message flagged as
    interrupted. *)
Definition audioAndInterruptMessage : LiveServerMessage :=
  {| serverContent :=
       Some {| outputTranscription := None; inputTranscription := None;
               modelTurn :=
                 Some {| parts :=
                           [{| inlineData := Some {| data := Some "AAAA" |} |}] |};
               interrupted := true |};
     toolCall := None |}.

(** *** Restarts *)




(* ================================================================== *)
(** * Properties *)

(** ** Generic facts about handlers *)

Lemma final_bind {A B} (m : M A) (k : A -> M B) (s : AppState) (a : A) :
  outcome (m s) = Ok a ->
  final (bind m k s) = final (k a (final (m s))).
Proof.
  unfold bind. destruct (m s) as [[a'|e] s1 e1]; cbn; intros H;
    [injection H as ->|discriminate].
  destruct (k a s1); reflexivity.
Qed.

(* ------------------------------------------------------------------ *)
(** ** The transcript window *)

Section TranscriptWindow.

Lemma slice_last_snoc {A} (n : nat) (l : list A) (e : A) :
  slice_last n l ++ [e] = slice_last (S n) (l ++ [e]).
Proof.
  unfold slice_last. rewrite length_app, skipn_app. cbn [List.length].
  replace (List.length l + 1 - S n)%nat with (List.length l - n)%nat by lia.
  replace (List.length l - n - List.length l)%nat with 0%nat by lia.
  reflexivity.
Qed.

Lemma slice_last_slice_last {A} (n m : nat) (l : list A) :
  (n <= m)%nat -> slice_last n (slice_last m l) = slice_last n l.
Proof.
  intros H. unfold slice_last. rewrite skipn_skipn, length_skipn.
  f_equal. lia.
Qed.

Lemma slice_last_length {A} (n : nat) (l : list A) :
  List.length (slice_last n l) = Nat.min n (List.length l).
Proof. unfold slice_last. rewrite length_skipn. lia. Qed.

Lemma addTranscription_final (text : string) (sender : Sender) (now : Z)
    (s : AppState) :
  transcriptions (final (addTranscription text sender now s))
  = slice_last 21 (transcriptions s
                     ++ [TranscriptionPart.mk text sender now]).
Proof. cbn. apply slice_last_snoc. Qed.

Lemma slice_last_app_absorb {A} (n : nat) (x r : list A) :
  slice_last n (slice_last n x ++ r) = slice_last n (x ++ r).
Proof.
  unfold slice_last.
  rewrite !length_app, !skipn_app, length_skipn, skipn_skipn.
  f_equal; f_equal; lia.
Qed.

Lemma appendAll_cons (text : string) (sender : Sender) (now : Z)
    (l : list Append) (s : AppState) :
  final (appendAll ((text, sender, now) :: l) s)
  = final (appendAll l (final (addTranscription text sender now s))).
Proof.
  unfold appendAll. cbn [forEach].
  rewrite final_bind with (a := tt) by reflexivity. reflexivity.
Qed.

(** After at least one append the window is the last 21 entries of
    everything that was ever in it. *)
Lemma appendAll_window (a : Append) (l : list Append) (s : AppState) :
  transcriptions (final (appendAll (a :: l) s))
  = slice_last 21 (transcriptions s ++ map entryOf (a :: l)).
Proof.
  revert a s. induction l as [|b l IH]; intros a s;
    destruct a as [[text sender] now]; rewrite appendAll_cons.
  - apply addTranscription_final.
  - rewrite IH, addTranscription_final, slice_last_app_absorb.
    rewrite <- app_assoc. reflexivity.
Qed.

End TranscriptWindow.

Section TranscriptWindowBound.

Lemma appendAll_window_length (l : list Append) (s : AppState) :
  (20 < List.length l)%nat ->
  List.length (transcriptions (final (appendAll l s))) = 21%nat.
Proof.
  intros H. destruct l as [|a l]; [cbn in H; lia|].
  rewrite appendAll_window, slice_last_length, length_app, length_map.
  lia.
Qed.

(** C1 (the code departs from the claim): after 21 appends to the empty
    transcript the window holds all 21 entries, the oldest one included,
    and so differs from the 20 most recent entries. *)
Theorem C1_window_after_21_appends :
  let w := transcriptions (final (appendAll twentyOneAppends initialState)) in
  List.length w = 21%nat
  /\ w = map entryOf twentyOneAppends
  /\ hd_error w = Some (TranscriptionPart.mk "" user 1)
  /\ w <> slice_last 20 (map entryOf twentyOneAppends).
Proof.
  cbv zeta. repeat split; try reflexivity.
  intros H. apply (f_equal (@List.length _)) in H.
  vm_compute in H. discriminate.
Qed.

End TranscriptWindowBound.

(* ------------------------------------------------------------------ *)
(** ** Teardown *)

Section Teardown.

Lemma forEach_emit {A} (f : A -> Effect) (l : list A) (s : AppState) :
  forEach l (fun a => emit (f a)) s = mkRes (Ok tt) s (map f l).
Proof.
  induction l as [|a l IH]; [reflexivity|].
  cbn [forEach]. unfold bind. cbn [emit]. rewrite IH. reflexivity.
Qed.

Lemma stopAllSources_run (s : AppState) :
  stopAllSources s = mkRes (Ok tt) s (map SourceStop (sourcesRef s)).
Proof.
  unfold stopAllSources, bind, gets. rewrite forEach_emit. reflexivity.
Qed.

Lemma handleStop_run (s : AppState) :
  handleStop s = mkRes (Ok tt) (tornDown s) (teardownCalls s).
Proof.
  unfold handleStop, teardownCalls, tornDown.
  destruct s as [st er tr sh cl sp vm cp [sc|] [mic|] [a|] ic oc nx srcs [t|]];
    unfold bind, gets, whenSome, setStatus, modify, emit, ret;
    cbn -[stopAllSources]; rewrite stopAllSources_run; reflexivity.
Qed.

(** C8: teardown never throws, from any state; it leaves the status
    Idle, no timer, no session, no stream, an empty live set and the clock
    offset at zero, after cancelling, closing and stopping whatever was
    held; a second teardown changes nothing and makes no further call on
    any resource; from the initial state (every handle null) it is a
    no-op on the state. *)
Theorem C8_teardown_idempotent_total (s : AppState) :
  let r1 := handleStop s in
  let r2 := handleStop (final r1) in
  outcome r1 = Ok tt /\ outcome r2 = Ok tt
  /\ effects r1 = teardownCalls s
  /\ status (final r1) = IDLE
  /\ frameIntervalRef (final r1) = None
  /\ activeSessionRef (final r1) = None
  /\ screenStreamRef (final r1) = None
  /\ micStreamRef (final r1) = None
  /\ sourcesRef (final r1) = []
  /\ nextStartTimeRef (final r1) = 0
  /\ final r2 = final r1
  /\ effects r2 = [SetStatus IDLE]
  /\ handleStop initialState = mkRes (Ok tt) initialState [SetStatus IDLE].
Proof.
  cbv zeta. rewrite !handleStop_run. cbn [final outcome effects].
  repeat split.
Qed.

(** C10: teardown writes only the status, the sharing, speaking and
    capturing flags, the clock offset and the timer, session, stream and
    live-set cells; the error message, the transcript and the markers are
    untouched.  So the message set by [onerror] is still there after its
    teardown, and a marker alive at stop is removed only by its own
    timeout, which acts after the stop as it acts before it. *)
Theorem C10_teardown_frame (s : AppState) :
  let s' := final (handleStop s) in
  s' = tornDown s
  /\ error s' = error s
  /\ transcriptions s' = transcriptions s
  /\ clicks s' = clicks s
  /\ error (final (onerror s)) = Some "Connection issue detected. Re-syncing..."
  /\ transcriptions (final (onerror s)) = transcriptions s
  /\ clicks (final (onerror s)) = clicks s
  /\ (forall id, clicks (final (onMarkerTimeout id s'))
                 = clicks (final (onMarkerTimeout id s)))
  /\ (forall id delay, ~ In (SetTimeout id delay) (effects (handleStop s))).
Proof.
  cbv zeta. unfold onerror.
  rewrite !final_bind with (a := tt) by reflexivity.
  rewrite !handleStop_run. cbn [final effects].
  repeat split.
  intros id delay. unfold teardownCalls.
  rewrite !in_app_iff.
  destruct (frameIntervalRef s), (activeSessionRef s), (screenStreamRef s),
    (micStreamRef s); cbn [optCall In]; rewrite in_map_iff;
    intros H; repeat destruct H as [H|H]; try discriminate; try contradiction;
    destruct H as [x [H _]]; discriminate.
Qed.

End Teardown.

(* ------------------------------------------------------------------ *)
(** ** What a handler may emit *)

Section Emits.

Variable P : Effect -> Prop.

Lemma emitsOnly_ret {A} (a : A) : emitsOnly P (ret a).
Proof. intros s. constructor. Qed.

Lemma emitsOnly_gets {A} (f : AppState -> A) : emitsOnly P (gets f).
Proof. intros s. constructor. Qed.

Lemma emitsOnly_modify (f : AppState -> AppState) : emitsOnly P (modify f).
Proof. intros s. constructor. Qed.

Lemma emitsOnly_lift {A} (x : Exc A) : emitsOnly P (lift x).
Proof. intros s. constructor. Qed.

Lemma emitsOnly_emit (e : Effect) : P e -> emitsOnly P (emit e).
Proof. intros H s. cbn. auto. Qed.

Lemma emitsOnly_bind {A B} (m : M A) (k : A -> M B) :
  emitsOnly P m -> (forall a, emitsOnly P (k a)) -> emitsOnly P (bind m k).
Proof.
  intros Hm Hk s. unfold bind. specialize (Hm s).
  destruct (m s) as [[a|e] s1 e1]; cbn in *; [|assumption].
  specialize (Hk a s1). destruct (k a s1) as [o s2 e2]; cbn in *.
  apply Forall_app; split; assumption.
Qed.

Lemma emitsOnly_tryCatch (body : M unit) (handler : JsError -> M unit) :
  emitsOnly P body -> (forall e, emitsOnly P (handler e)) ->
  emitsOnly P (tryCatch body handler).
Proof.
  intros Hm Hk s. unfold tryCatch. specialize (Hm s).
  destruct (body s) as [[a|e] s1 e1]; cbn in *; [assumption|].
  specialize (Hk e s1). destruct (handler e s1) as [o s2 e2]; cbn in *.
  apply Forall_app; split; assumption.
Qed.

Lemma emitsOnly_when (c : bool) (m : M unit) :
  emitsOnly P m -> emitsOnly P (when c m).
Proof. intros H. destruct c; [exact H|apply emitsOnly_ret]. Qed.

Lemma emitsOnly_whenSome {A} (o : option A) (f : A -> M unit) :
  (forall a, emitsOnly P (f a)) -> emitsOnly P (whenSome o f).
Proof. intros H. destruct o; [apply H|apply emitsOnly_ret]. Qed.

Lemma emitsOnly_forEach {A} (l : list A) (f : A -> M unit) :
  (forall a, emitsOnly P (f a)) -> emitsOnly P (forEach l f).
Proof.
  intros H. induction l as [|a l IH]; cbn [forEach].
  - apply emitsOnly_ret.
  - apply emitsOnly_bind; [apply H|intros _; exact IH].
Qed.

End Emits.

Ltac emits_step :=
  first [ apply emitsOnly_bind; [|intros ?]
        | apply emitsOnly_tryCatch; [|intros ?]
        | apply emitsOnly_when
        | apply emitsOnly_whenSome; intros ?
        | apply emitsOnly_forEach; intros ?
        | apply emitsOnly_ret | apply emitsOnly_gets | apply emitsOnly_modify
        | apply emitsOnly_lift
        | apply emitsOnly_emit ].

(* ------------------------------------------------------------------ *)
(** ** The session state machine *)

Section Session.

Lemma statusWrites_app (l1 l2 : list Effect) :
  statusWrites (l1 ++ l2) = statusWrites l1 ++ statusWrites l2.
Proof. apply flat_map_app. Qed.

Lemma statusWrites_teardownCalls (s : AppState) :
  statusWrites (teardownCalls s) = [IDLE].
Proof.
  unfold teardownCalls. rewrite !statusWrites_app.
  assert (H : statusWrites (map SourceStop (sourcesRef s)) = []).
  { induction (sourcesRef s) as [|h l IH]; [reflexivity|exact IH]. }
  rewrite H.
  destruct (frameIntervalRef s), (activeSessionRef s), (screenStreamRef s),
    (micStreamRef s); reflexivity.
Qed.

Lemma acquireContext_emitsOnly (P : Effect -> Prop)
    (ref : AppState -> option handle)
    (set : option handle -> AppState -> AppState)
    (create : Exc handle) (resume : Exc unit) :
  emitsOnly P (acquireContext ref set create resume).
Proof.
  unfold acquireContext. emits_step; [emits_step|].
  emits_step; [|emits_step]. destruct a; repeat emits_step.
Qed.

Lemma startAISession_emitsOnly (env : StartEnv) :
  emitsOnly isStatusWrite (startAISession env).
Proof.
  assert (Hs : forall v, emitsOnly isStatusWrite (setStatus v)).
  { intros v. unfold setStatus. repeat emits_step. exists v. reflexivity. }
  unfold startAISession. destruct (negb (truthy_opt (API_KEY env))).
  - emits_step.
  - repeat first [ apply Hs | apply acquireContext_emitsOnly | emits_step ].
Qed.

(** *** Transport errors *)

Lemma onerror_run (s : AppState) :
  onerror s
  = mkRes (Ok tt) (tornDown (set_error (Some connectionIssue) s))
      (ConsoleError :: teardownCalls s).
Proof.
  unfold onerror, bind, emit, modify. rewrite handleStop_run. reflexivity.
Qed.

(** C2 as stated fails: from the running session the error handler never
    writes the Error status. *)
Lemma C2_onerror_never_writes_ERROR :
  ~ In ERROR (statusWrites (effects (onerror activeExample))).
Proof. vm_compute. intros [H|[]]. discriminate. Qed.

(** C2 (amended): from every state a transport error surfaces the
    connection message and runs the full teardown; the only status it
    writes is Idle, which is the status it ends in; Error is not written. *)
Theorem C2_onerror_tears_down_to_idle (s : AppState) :
  let r := onerror s in
  outcome r = Ok tt
  /\ effects r = ConsoleError :: teardownCalls s
  /\ final r = tornDown (set_error (Some connectionIssue) s)
  /\ statusWrites (effects r) = [IDLE]
  /\ status (final r) = IDLE
  /\ error (final r) = Some connectionIssue.
Proof.
  cbv zeta. rewrite onerror_run. cbn [outcome effects final].
  repeat split. cbn [statusWrites flat_map app].
  apply statusWrites_teardownCalls.
Qed.

(** *** Starting while a session exists *)


End Session.

(* ------------------------------------------------------------------ *)
(** ** The inbound message router *)

Section Router.

Lemma bind_ok {A B} (m : M A) (k : A -> M B) (s s1 : AppState) (a : A)
    (e1 : list Effect) :
  m s = mkRes (Ok a) s1 e1 ->
  bind m k s
  = mkRes (outcome (k a s1)) (final (k a s1)) (e1 ++ effects (k a s1)).
Proof. intros H1. unfold bind. rewrite H1. destruct (k a s1); reflexivity. Qed.

Lemma bind_throw {A B} (m : M A) (k : A -> M B) (s s1 : AppState)
    (e : JsError) (e1 : list Effect) :
  m s = mkRes (Throw e) s1 e1 -> bind m k s = mkRes (Throw e) s1 e1.
Proof. intros H1. unfold bind. rewrite H1. reflexivity. Qed.

Lemma routeTranscription_run msg env s :
  routeTranscription msg env s = mkRes (Ok tt) (routed msg env s) [].
Proof.
  unfold routeTranscription, routed, transcriptOf.
  destruct (serverContent msg) as [sc|]; [|reflexivity].
  destruct (outputTranscription sc); [reflexivity|].
  destruct (inputTranscription sc); reflexivity.
Qed.

Lemma dispatchFrom_run k fcs env s :
  dispatchFrom k fcs env s
  = mkRes (Ok tt) (set_clicks (clicks s ++ markersFrom k fcs env) s)
      (callsFrom k fcs env).
Proof.
  revert k s. induction fcs as [|fc rest IH]; intros k s.
  - cbn. rewrite app_nil_r. destruct s; reflexivity.
  - cbn [dispatchFrom markersFrom callsFrom].
    destruct (isClickAnswer fc); [|apply IH].
    erewrite bind_ok by reflexivity. rewrite IH.
    cbn [outcome final effects clicks set_clicks]. rewrite <- app_assoc.
    destruct s; reflexivity.
Qed.

Lemma dispatchToolCalls_run msg env s :
  dispatchToolCalls msg env s
  = mkRes (Ok tt) (dispatched msg env s) (dispatchCalls msg env).
Proof.
  unfold dispatchToolCalls, dispatched, dispatchCalls, whenSome.
  destruct (toolCall msg); [apply dispatchFrom_run|reflexivity].
Qed.

Lemma handleInterrupted_run msg s :
  handleInterrupted msg s
  = if interruptedOf msg
    then mkRes (Ok tt) (silenced s) (map SourceStop (sourcesRef s))
    else mkRes (Ok tt) s [].
Proof.
  unfold handleInterrupted, interruptedOf.
  destruct (match serverContent msg with Some sc => interrupted sc
                                     | None => false end); [|reflexivity].
  cbn [when]. unfold bind. rewrite stopAllSources_run.
  cbn. rewrite app_nil_r. reflexivity.
Qed.

Lemma scheduleAudio_run msg env s :
  scheduleAudio msg env s
  = if hasAudio msg s then
      match decodeAudioData env with
      | Ok b =>
          mkRes (Ok tt) (scheduled b env s)
            [SourceStart (createBufferSource env) b
               (Math_max (nextStartTimeRef s) (currentTime env))]
      | Throw e =>
          mkRes (Throw e)
            (set_nextStartTimeRef
               (Math_max (nextStartTimeRef s) (currentTime env))
               (set_isAiSpeaking true s)) []
      end
    else mkRes (Ok tt) s [].
Proof.
  unfold scheduleAudio, hasAudio, bind at 1, gets.
  destruct (truthy_opt (audioDataOf msg) && isSome (outputAudioContextRef s));
    [|reflexivity].
  cbn [when]. destruct s. unfold scheduled.
  destruct (decodeAudioData env) as [b|e]; reflexivity.
Qed.

End Router.

Section OnMessage.

Lemma hasAudio_routed msg env s :
  hasAudio msg (routed msg env s) = hasAudio msg s.
Proof.
  unfold hasAudio, routed.
  destruct (transcriptOf msg) as [[t sd]|]; reflexivity.
Qed.

Lemma audioStepThrows_routed msg env s :
  audioStepThrows msg env (routed msg env s) = audioStepThrows msg env s.
Proof. unfold audioStepThrows. rewrite hasAudio_routed. reflexivity. Qed.

(** A handler whose audio step does not throw runs all four steps. *)
Lemma onmessage_completes msg env s :
  audioStepThrows msg env s = false ->
  onmessage msg env s
  = let s1 := routed msg env s in
    let s2 := afterAudio msg env s1 in
    mkRes (Ok tt) (dispatched msg env (afterInterrupt msg s2))
      (audioCalls msg env s1 ++ interruptCalls msg s2 ++ dispatchCalls msg env).
Proof.
  intros H. rewrite <- (audioStepThrows_routed msg env s) in H.
  cbv zeta. unfold onmessage.
  erewrite bind_ok by apply routeTranscription_run.
  set (s1 := routed msg env s) in *.
  assert (Hs : scheduleAudio msg env s1
               = mkRes (Ok tt) (afterAudio msg env s1) (audioCalls msg env s1)).
  { rewrite scheduleAudio_run. unfold afterAudio, audioCalls.
    unfold audioStepThrows in H.
    destruct (hasAudio msg s1); [|reflexivity].
    destruct (decodeAudioData env); [reflexivity|discriminate]. }
  erewrite bind_ok by exact Hs.
  set (s2 := afterAudio msg env s1).
  assert (Hi : handleInterrupted msg s2
               = mkRes (Ok tt) (afterInterrupt msg s2) (interruptCalls msg s2)).
  { rewrite handleInterrupted_run. unfold afterInterrupt, interruptCalls.
    destruct (interruptedOf msg); reflexivity. }
  erewrite bind_ok by exact Hi.
  rewrite dispatchToolCalls_run. reflexivity.
Qed.

(** A handler whose audio payload does not decode stops at line 217: the
    interruption flag and the tool calls of that message are not looked
    at. *)
Lemma onmessage_throws msg env s :
  audioStepThrows msg env s = true ->
  exists e,
    decodeAudioData env = Throw e
    /\ onmessage msg env s
       = mkRes (Throw e) (afterAudio msg env (routed msg env s)) [].
Proof.
  intros H. rewrite <- (audioStepThrows_routed msg env s) in H.
  unfold audioStepThrows in H. apply andb_prop in H as [Ha Hd].
  destruct (decodeAudioData env) as [b|e] eqn:E; [discriminate|].
  exists e. split; [reflexivity|].
  unfold onmessage.
  erewrite bind_ok by apply routeTranscription_run.
  erewrite bind_throw; [reflexivity|].
  rewrite scheduleAudio_run. unfold afterAudio. rewrite Ha, E. reflexivity.
Qed.

(** *** Tool calls *)

(** C5: the message carrying the single invocation [{id:"abc",
    name:"click_answer", args:{x:42, y:17, label:"Submit"}}] adds exactly
    one marker, with x=42, y=17, label="Submit" and the drawn id, arms its
    4000 ms removal, and sends exactly one tool response, whose
    payload is id "abc", name "click_answer" and body [{result:"ok"}]. *)
Theorem C5_tool_round_trip (env : MessageEnv) (s : AppState) :
  let r := onmessage submitMessage env s in
  let marker := ClickAction.mk 42 17 "Submit" (randomId env 0) in
  let reply :=
    FunctionResponse.mk "abc" "click_answer" (FunctionResponse.mkBody "ok") in
  outcome r = Ok tt
  /\ final r = set_clicks (clicks s ++ [marker]) s
  /\ effects r = [SetTimeout (randomId env 0) 4000; SendToolResponse [reply]]
  /\ sendCalls (effects r) = [[reply]]
  /\ responsesOf (effects r) = [reply].
Proof.
  cbv zeta. rewrite onmessage_completes by reflexivity.
  cbn. repeat split.
Qed.

Lemma responsesOf_callsFrom k fcs env :
  responsesOf (callsFrom k fcs env) = map acknowledgment (filter isClickAnswer fcs).
Proof.
  revert k. induction fcs as [|fc rest IH]; intros k; [reflexivity|].
  cbn [callsFrom filter]. destruct (isClickAnswer fc); [|apply IH].
  cbn. f_equal. apply IH.
Qed.

Lemma sendCalls_callsFrom k fcs env :
  sendCalls (callsFrom k fcs env)
  = map (fun fc => [acknowledgment fc]) (filter isClickAnswer fcs).
Proof.
  revert k. induction fcs as [|fc rest IH]; intros k; [reflexivity|].
  cbn [callsFrom filter]. destruct (isClickAnswer fc); [|apply IH].
  cbn. f_equal. apply IH.
Qed.

Lemma responsesOf_app l1 l2 :
  responsesOf (l1 ++ l2) = responsesOf l1 ++ responsesOf l2.
Proof. apply flat_map_app. Qed.

Lemma sendCalls_app l1 l2 : sendCalls (l1 ++ l2) = sendCalls l1 ++ sendCalls l2.
Proof. apply flat_map_app. Qed.

Lemma responsesOf_audioCalls msg env s : responsesOf (audioCalls msg env s) = [].
Proof.
  unfold audioCalls. destruct (hasAudio msg s); [|reflexivity].
  destruct (decodeAudioData env); reflexivity.
Qed.

Lemma sendCalls_audioCalls msg env s : sendCalls (audioCalls msg env s) = [].
Proof.
  unfold audioCalls. destruct (hasAudio msg s); [|reflexivity].
  destruct (decodeAudioData env); reflexivity.
Qed.

Lemma responsesOf_interruptCalls msg s : responsesOf (interruptCalls msg s) = [].
Proof.
  unfold interruptCalls. destruct (interruptedOf msg); [|reflexivity].
  induction (sourcesRef s) as [|h l IH]; [reflexivity|exact IH].
Qed.

Lemma sendCalls_interruptCalls msg s : sendCalls (interruptCalls msg s) = [].
Proof.
  unfold interruptCalls. destruct (interruptedOf msg); [|reflexivity].
  induction (sourcesRef s) as [|h l IH]; [reflexivity|exact IH].
Qed.

(** When the handler reaches the dispatcher (its audio step did not
    throw), the invocations named [click_answer] are the accepted ones,
    and the responses sent are their acknowledgments, one
    [sendToolResponse] call each, in the order of the invocations and
    with the invocation's id and name; so every id is answered as many
    times as accepted invocations carry it. *)
Lemma completed_handler_answers_accepted_calls (msg : LiveServerMessage)
    (env : MessageEnv) (s : AppState) (tc : ToolCall) :
  toolCall msg = Some tc ->
  audioStepThrows msg env s = false ->
  let r := onmessage msg env s in
  let accepted := filter isClickAnswer (functionCalls tc) in
  outcome r = Ok tt
  /\ sendCalls (effects r) = map (fun fc => [acknowledgment fc]) accepted
  /\ responsesOf (effects r) = map acknowledgment accepted
  /\ map FunctionResponse.id (responsesOf (effects r))
     = map FunctionCall.id accepted
  /\ (forall id,
        count_occ string_dec
          (map FunctionResponse.id (responsesOf (effects r))) id
        = count_occ string_dec (map FunctionCall.id accepted) id).
Proof.
  intros Htc Hok. cbv zeta. rewrite onmessage_completes by exact Hok.
  cbv zeta. cbn [outcome effects].
  rewrite !responsesOf_app, !sendCalls_app.
  rewrite responsesOf_audioCalls, responsesOf_interruptCalls.
  rewrite sendCalls_audioCalls, sendCalls_interruptCalls.
  unfold dispatchCalls. rewrite Htc. cbn [app].
  rewrite responsesOf_callsFrom, sendCalls_callsFrom.
  assert (Hid : map FunctionResponse.id
                  (map acknowledgment (filter isClickAnswer (functionCalls tc)))
                = map FunctionCall.id (filter isClickAnswer (functionCalls tc))).
  { rewrite map_map. reflexivity. }
  repeat split; try assumption.
  intros id. rewrite Hid. reflexivity.
Qed.

(** A handler that the decoder leaves with an exception has made no call
    at all and has added no marker: whatever tool invocations the message
    carries, none is answered. *)
Lemma aborted_handler_answers_nothing (msg : LiveServerMessage)
    (env : MessageEnv) (s : AppState) :
  audioStepThrows msg env s = true ->
  let r := onmessage msg env s in
  (exists e, outcome r = Throw e)
  /\ effects r = []
  /\ clicks (final r) = clicks s.
Proof.
  intros H. cbv zeta.
  destruct (onmessage_throws msg env s H) as [e [_ ->]].
  cbn [outcome effects final].
  split; [exists e; reflexivity|]. split; [reflexivity|].
  unfold afterAudio, routed.
  destruct (transcriptOf msg) as [[t sd]|];
    (destruct (hasAudio msg _); [destruct (decodeAudioData env)|]); reflexivity.
Qed.

(** C6 fails on the code.  The message [audioAndCallMessage] carries the
    accepted invocation [submitCall] (id "abc", name "click_answer")
    next to an audio payload that does not decode.  The exception of
    line 217 is not caught, so the handler is left before the loop of
    lines 237-249: no response is sent for "abc" and no marker is added,
    where the claim asks for exactly one response.  The same invocation
    on a message without the payload is answered once. *)
Theorem C6_undecodable_audio_drops_tool_calls :
  let r := onmessage audioAndCallMessage badAudioEnv activeExample in
  toolCall audioAndCallMessage = Some {| functionCalls := [submitCall] |}
  /\ filter isClickAnswer [submitCall] = [submitCall]
  /\ outcome r = Throw oddByteLength
  /\ effects r = []
  /\ responsesOf (effects r) = []
  /\ count_occ string_dec (map FunctionResponse.id (responsesOf (effects r)))
       (FunctionCall.id submitCall) = 0%nat
  /\ clicks (final r) = []
  /\ responsesOf (effects (onmessage submitMessage badAudioEnv activeExample))
     = [acknowledgment submitCall].
Proof. cbv zeta. vm_compute. repeat split. Qed.

(** *** Interruption *)

Lemma dispatched_frame msg env s :
  sourcesRef (dispatched msg env s) = sourcesRef s
  /\ nextStartTimeRef (dispatched msg env s) = nextStartTimeRef s
  /\ isAiSpeaking (dispatched msg env s) = isAiSpeaking s.
Proof. unfold dispatched. destruct (toolCall msg); repeat split. Qed.

(** From every scheduler state, a message flagged as interrupted whose
    handler reaches the interruption step calls [stop] on every slot of
    the live set (the one this message scheduled included), and leaves
    the live set empty, [nextStartTime] at 0 and the speaking flag off. *)
Lemma completed_handler_clears_playback (msg : LiveServerMessage)
    (env : MessageEnv) (s : AppState) :
  interruptedOf msg = true ->
  audioStepThrows msg env s = false ->
  let r := onmessage msg env s in
  let live := sourcesRef (afterAudio msg env (routed msg env s)) in
  outcome r = Ok tt
  /\ sourcesRef (final r) = []
  /\ nextStartTimeRef (final r) = 0
  /\ isAiSpeaking (final r) = false
  /\ incl (sourcesRef s) live
  /\ Forall (fun h => In (SourceStop h) (effects r)) live
  /\ handleInterrupted msg s
     = mkRes (Ok tt) (silenced s) (map SourceStop (sourcesRef s)).
Proof.
  intros Hi Hok. cbv zeta. rewrite onmessage_completes by exact Hok.
  cbv zeta. cbn [outcome final effects].
  destruct (dispatched_frame msg env
              (afterInterrupt msg (afterAudio msg env (routed msg env s))))
    as (-> & -> & ->).
  unfold afterInterrupt, interruptCalls. rewrite Hi.
  repeat split.
  - unfold afterAudio. rewrite hasAudio_routed.
    assert (Hr : sourcesRef (routed msg env s) = sourcesRef s).
    { unfold routed. destruct (transcriptOf msg) as [[t sd]|]; reflexivity. }
    destruct (hasAudio msg s); [|rewrite Hr; apply incl_refl].
    destruct (decodeAudioData env) as [b|e].
    + unfold scheduled. cbn [sourcesRef set_sourcesRef]. rewrite Hr.
      unfold set_add. destruct (existsb _ _); [apply incl_refl|].
      apply incl_appl, incl_refl.
    + cbn. rewrite Hr. apply incl_refl.
  - apply Forall_forall. intros h Hh.
    rewrite !in_app_iff. right. left. apply in_map. exact Hh.
  - rewrite handleInterrupted_run, Hi. reflexivity.
Qed.

(** C7 fails on the code.  The message [audioAndInterruptMessage] is
    flagged as interrupted and carries an audio payload that does not
    decode.  From the running session, with slots 7 and 8 scheduled, the
    exception of line 217 leaves the handler before lines 230-235: no
    slot is stopped, the live set still holds 7 and 8, [nextStartTime]
    is 5 and the speaking flag is on, where the claim asks for an empty
    set, 0 and the flag off.  The same flag on a message without the
    payload clears all three. *)
Theorem C7_undecodable_audio_skips_interruption :
  let r := onmessage audioAndInterruptMessage badAudioEnv activeExample in
  interruptedOf audioAndInterruptMessage = true
  /\ outcome r = Throw oddByteLength
  /\ effects r = []
  /\ sourcesRef (final r) = [7%nat; 8%nat]
  /\ nextStartTimeRef (final r) = 5
  /\ ~ nextStartTimeRef (final r) == 0
  /\ isAiSpeaking (final r) = true
  /\ (let r' := onmessage interruptMessage badAudioEnv activeExample in
      effects r' = [SourceStop 7%nat; SourceStop 8%nat]
      /\ sourcesRef (final r') = []
      /\ nextStartTimeRef (final r') = 0
      /\ isAiSpeaking (final r') = false).
Proof.
  cbv zeta. vm_compute.
  repeat split; try reflexivity. intros H. discriminate H.
Qed.

End OnMessage.

(* ------------------------------------------------------------------ *)
(** ** Aborted starts *)

Section AbortedStart.

Lemma startFailureMessage_nonempty (err : JsError) :
  startFailureMessage err <> "".
Proof.
  unfold startFailureMessage.
  destruct (truthy (message err)) eqn:T; [|discriminate].
  intros H. rewrite H in T. discriminate.
Qed.

(** C9: a start request issued in status Idle, with the credential
    absent or with the output audio or the microphone failing, does not
    throw, ends in status Idle with a non-empty error message, writes no
    status other than Connecting followed by Idle, makes no call on any
    resource, and leaves the frame timer, the live playback set, the
    clock offset, the transcript, the markers, the flags and the session
    and stream handles as they were. *)
Theorem C9_aborted_start_leaves_idle (env : StartEnv) (s : AppState) :
  status s = IDLE ->
  startAborts env s ->
  let r := startAISession env s in
  outcome r = Ok tt
  /\ status (final r) = IDLE
  /\ (exists m, error (final r) = Some m /\ m <> "")
  /\ (statusWrites (effects r) = []
      \/ statusWrites (effects r) = [CONNECTING; IDLE])
  /\ Forall isStatusWrite (effects r)
  /\ frameIntervalRef (final r) = frameIntervalRef s
  /\ sourcesRef (final r) = sourcesRef s
  /\ nextStartTimeRef (final r) = nextStartTimeRef s
  /\ transcriptions (final r) = transcriptions s
  /\ clicks (final r) = clicks s
  /\ isAiSpeaking (final r) = isAiSpeaking s
  /\ isCapturing (final r) = isCapturing s
  /\ isScreenShared (final r) = isScreenShared s
  /\ activeSessionRef (final r) = activeSessionRef s
  /\ micStreamRef (final r) = micStreamRef s
  /\ screenStreamRef (final r) = screenStreamRef s.
Proof.
  intros Hidle Habort. cbv zeta.
  assert (Hemit := startAISession_emitsOnly env s).
  revert Hemit.
  destruct s as [st er tr sh cl sp vm cp scr mic act ic oc nx srcs tm].
  destruct env as [key g no ro gum na ri cn].
  unfold startAborts in Habort. cbn in Hidle, Habort. subst st.
  unfold startAISession. cbn [API_KEY].
  destruct (truthy_opt key) eqn:K; cbn [negb].
  - destruct Habort as [H|Habort]; [discriminate|].
    assert (Hne := startFailureMessage_nonempty).
    destruct g as [[]|eg]; [|cbn; intros; repeat split; eauto 6].
    destruct oc as [c|].
    + destruct ro as [[]|er']; [|cbn; intros; repeat split; eauto 6].
      destruct gum as [m|em]; [|cbn; intros; repeat split; eauto 6].
      exfalso. destruct Habort as [[H _]|[[e H]|[e H]]]; discriminate.
    + destruct no as [c|en]; [|cbn; intros; repeat split; eauto 6].
      destruct ro as [[]|er']; [|cbn; intros; repeat split; eauto 6].
      destruct gum as [m|em]; [|cbn; intros; repeat split; eauto 6].
      exfalso. destruct Habort as [[_ [e H]]|[[e H]|[e H]]]; discriminate.
  - cbn. intros. repeat split; eauto.
    exists "API Key is missing from the environment.". split; [reflexivity|].
    discriminate.
Qed.

Lemma C9_witness :
  status (final (startAISession micDeniedEnv initialState)) = IDLE
  /\ error (final (startAISession micDeniedEnv initialState))
     = Some "Permission denied".
Proof.
  split.
  - apply (C9_aborted_start_leaves_idle micDeniedEnv initialState);
      [reflexivity|].
    right; right; right. exists {| message := "Permission denied" |}.
    reflexivity.
  - reflexivity.
Defined.

End AbortedStart.

(* ------------------------------------------------------------------ *)
(** ** The playback scheduler *)

Section Scheduler.

Lemma Math_max_l (a b : Q) : a <= Math_max a b.
Proof.
  unfold Math_max. destruct (Qle_bool a b) eqn:E.
  - apply Qle_bool_iff. exact E.
  - apply Qle_refl.
Qed.

Lemma Math_max_r (a b : Q) : b <= Math_max a b.
Proof.
  unfold Math_max. destruct (Qle_bool a b) eqn:E.
  - apply Qle_refl.
  - apply Qlt_le_weak, Qnot_le_lt. intros H.
    apply Qle_bool_iff in H. congruence.
Qed.

Lemma duration_nonneg (b : AudioBuffer.t) : 0 <= AudioBuffer.duration b.
Proof. unfold AudioBuffer.duration, Qle. cbn. lia. Qed.

Lemma chained_weaken (lo lo' : Q) (l : list (Q * Q)) :
  lo <= lo' -> chained lo' l -> chained lo l.
Proof.
  intros H. destruct l as [|[t d] r]; [trivial|].
  cbn. intros [H1 H2]. split; [eapply Qle_trans; eassumption|exact H2].
Qed.

Lemma startsOf_app l1 l2 : startsOf (l1 ++ l2) = startsOf l1 ++ startsOf l2.
Proof. apply flat_map_app. Qed.

Lemma startsOf_callsFrom k fcs env : startsOf (callsFrom k fcs env) = [].
Proof.
  revert k. induction fcs as [|fc rest IH]; intros k; [reflexivity|].
  cbn [callsFrom]. destruct (isClickAnswer fc); [cbn|]; apply IH.
Qed.

Lemma startsOf_dispatchCalls msg env : startsOf (dispatchCalls msg env) = [].
Proof.
  unfold dispatchCalls. destruct (toolCall msg); [|reflexivity].
  apply startsOf_callsFrom.
Qed.

Lemma nextStartTimeRef_routed msg env s :
  nextStartTimeRef (routed msg env s) = nextStartTimeRef s.
Proof. unfold routed. destruct (transcriptOf msg) as [[t sd]|]; reflexivity. Qed.

(** What one handler without interruption does to the timeline: it
    places no slot and does not move [nextStartTime] back, or it places
    one slot at [max(nextStartTime, currentTime)] and moves
    [nextStartTime] to the end of that slot. *)
Lemma onmessage_schedule msg env s :
  interruptedOf msg = false ->
  let r := onmessage msg env s in
  let startAt := Math_max (nextStartTimeRef s) (currentTime env) in
  (startsOf (effects r) = []
   /\ nextStartTimeRef s <= nextStartTimeRef (final r))
  \/ (exists d, 0 <= d
        /\ startsOf (effects r) = [(startAt, d)]
        /\ nextStartTimeRef (final r) = startAt + d).
Proof.
  intros Hi. cbv zeta.
  destruct (audioStepThrows msg env s) eqn:T.
  - destruct (onmessage_throws msg env s T) as [e [E ->]].
    left. cbn [effects final]. split; [reflexivity|].
    unfold afterAudio. rewrite hasAudio_routed, E.
    destruct (hasAudio msg s); cbn; rewrite nextStartTimeRef_routed;
      [apply Math_max_l|apply Qle_refl].
  - rewrite onmessage_completes by exact T.
    cbv zeta. cbn [effects final].
    destruct (dispatched_frame msg env
                (afterInterrupt msg (afterAudio msg env (routed msg env s))))
      as (_ & -> & _).
    unfold afterInterrupt, interruptCalls. rewrite Hi.
    rewrite !startsOf_app, startsOf_dispatchCalls. cbn [startsOf flat_map app].
    rewrite app_nil_r.
    unfold afterAudio, audioCalls. rewrite hasAudio_routed.
    destruct (hasAudio msg s).
    + destruct (decodeAudioData env) as [b|e];
        cbn [scheduled nextStartTimeRef set_nextStartTimeRef set_sourcesRef
             set_isAiSpeaking startsOf flat_map app];
        rewrite !nextStartTimeRef_routed.
      * right. exists (AudioBuffer.duration b).
        split; [apply duration_nonneg|]. split; reflexivity.
      * left. split; [reflexivity|]. apply Math_max_l.
    + left. split; [reflexivity|].
      rewrite nextStartTimeRef_routed. apply Qle_refl.
Qed.

(** C4: for every state and every sequence of inbound messages without
    an interruption, delivered with arbitrary clock readings (decode
    failures included): the slots are scheduled so that each starts no
    earlier than the previous start plus the previous duration, the first
    no earlier than the initial [nextStartTime]; every slot starts no
    earlier than the output clock reading of its own invocation; and
    [nextStartTime] never decreases from one delivery to the next. *)
Theorem C4_scheduler_non_overlap (l : list Delivery) (s : AppState) :
  Forall (fun d => interruptedOf (fst d) = false) l ->
  let rs := runMessages l s in
  chained (nextStartTimeRef s)
    (flat_map (fun r => startsOf (effects (snd r))) rs)
  /\ Forall (fun r =>
               Forall (fun slot => fst r <= fst slot)
                 (startsOf (effects (snd r)))) rs
  /\ nondecreasing
       (nextStartTimeRef s :: map (fun r => nextStartTimeRef (final (snd r))) rs).
Proof.
  intros H. cbv zeta. revert s.
  induction H as [|[msg env] l Hi _ IH]; intros s.
  - cbn. repeat split. constructor.
  - cbn [runMessages flat_map map fst snd].
    cbn [fst] in Hi.
    set (r := onmessage msg env s).
    destruct (IH (final r)) as (IH1 & IH2 & IH3).
    pose proof (onmessage_schedule msg env s Hi) as Hstep.
    cbv zeta in Hstep. fold r in Hstep.
    destruct Hstep as [[Hs Hn]|[d [Hd [Hs Hn]]]]; rewrite Hs.
    + split; [|split].
      * cbn [app]. eapply chained_weaken; eassumption.
      * constructor; [cbn [fst snd]; rewrite Hs; constructor|exact IH2].
      * cbn [nondecreasing] in *. split; [exact Hn|exact IH3].
    + split; [|split].
      * cbn [app chained]. split; [apply Math_max_l|].
        rewrite <- Hn. exact IH1.
      * constructor; [cbn [fst snd]; rewrite Hs|exact IH2].
        constructor; [|constructor]. cbn [fst]. apply Math_max_r.
      * cbn [nondecreasing] in *. split; [|exact IH3].
        rewrite Hn.
        apply Qle_trans with (Math_max (nextStartTimeRef s) (currentTime env));
          [apply Math_max_l|].
        rewrite <- (Qplus_0_r (Math_max _ _)) at 1.
        apply Qplus_le_r. exact Hd.
Qed.

Lemma C4_witness :
  chained (nextStartTimeRef activeExample)
    (flat_map (fun r => startsOf (effects (snd r)))
       (runMessages exampleDeliveries activeExample)).
Proof.
  apply (C4_scheduler_non_overlap exampleDeliveries activeExample).
  repeat constructor.
Defined.

End Scheduler.

(* ------------------------------------------------------------------ *)
(** ** The Error status is never entered *)

Section StatusInvariant.

Variable I : AppState -> Prop.

Lemma preserves_ret {A} (a : A) : preserves I (ret a).
Proof. intros s H; exact H. Qed.

Lemma preserves_gets {A} (f : AppState -> A) : preserves I (gets f).
Proof. intros s H; exact H. Qed.

Lemma preserves_lift {A} (x : Exc A) : preserves I (lift x).
Proof. intros s H; exact H. Qed.

Lemma preserves_emit (e : Effect) : preserves I (emit e).
Proof. intros s H; exact H. Qed.

Lemma preserves_modify (f : AppState -> AppState) :
  (forall s, I s -> I (f s)) -> preserves I (modify f).
Proof. intros Hf s H. apply Hf, H. Qed.

Lemma preserves_bind {A B} (m : M A) (k : A -> M B) :
  preserves I m -> (forall a, preserves I (k a)) -> preserves I (bind m k).
Proof.
  intros Hm Hk s H. unfold bind. specialize (Hm s H).
  destruct (m s) as [[a|e] s1 e1]; cbn in *; [|assumption].
  specialize (Hk a s1 Hm). destruct (k a s1); exact Hk.
Qed.

Lemma preserves_tryCatch (body : M unit) (handler : JsError -> M unit) :
  preserves I body -> (forall e, preserves I (handler e)) ->
  preserves I (tryCatch body handler).
Proof.
  intros Hm Hk s H. unfold tryCatch. specialize (Hm s H).
  destruct (body s) as [[a|e] s1 e1]; cbn in *; [assumption|].
  specialize (Hk e s1 Hm). destruct (handler e s1); exact Hk.
Qed.

Lemma preserves_when (c : bool) (m : M unit) :
  preserves I m -> preserves I (when c m).
Proof. intros H. destruct c; [exact H|apply preserves_ret]. Qed.

Lemma preserves_whenSome {A} (o : option A) (f : A -> M unit) :
  (forall a, preserves I (f a)) -> preserves I (whenSome o f).
Proof. intros H. destruct o; [apply H|apply preserves_ret]. Qed.

Lemma preserves_forEach {A} (l : list A) (f : A -> M unit) :
  (forall a, preserves I (f a)) -> preserves I (forEach l f).
Proof.
  intros H. induction l as [|a l IH]; cbn [forEach].
  - apply preserves_ret.
  - apply preserves_bind; [apply H|intros _; exact IH].
Qed.

End StatusInvariant.

Ltac preserves_step :=
  first [ apply preserves_bind; [|intros ?]
        | apply preserves_tryCatch; [|intros ?]
        | apply preserves_when
        | apply preserves_whenSome; intros ?
        | apply preserves_forEach; intros ?
        | apply preserves_ret | apply preserves_gets | apply preserves_lift
        | apply preserves_emit
        | apply preserves_modify; let H := fresh in intros ? H; exact H ].

Section NeverError.

Lemma setStatus_notError (v : SessionStatus) :
  v <> ERROR -> preserves notError (setStatus v).
Proof.
  intros Hv. unfold setStatus. preserves_step; [preserves_step|].
  apply preserves_modify. intros s _. exact Hv.
Qed.

Lemma handleStop_notError : preserves notError handleStop.
Proof. intros s _. rewrite handleStop_run. discriminate. Qed.

Lemma startAISession_notError env : preserves notError (startAISession env).
Proof.
  unfold startAISession, acquireContext.
  destruct (negb (truthy_opt (API_KEY env))); [preserves_step|].
  repeat first [ apply setStatus_notError; discriminate
               | preserves_step
               | match goal with |- preserves _ (match ?c with _ => _ end) =>
                   destruct c end ].
Qed.

Lemma dispatchFrom_notError k fcs env : preserves notError (dispatchFrom k fcs env).
Proof. intros s H. rewrite dispatchFrom_run. exact H. Qed.

Lemma onmessage_notError msg env : preserves notError (onmessage msg env).
Proof.
  unfold onmessage, routeTranscription, addTranscription, scheduleAudio,
    handleInterrupted, stopAllSources, dispatchToolCalls.
  repeat first [ apply dispatchFrom_notError
               | preserves_step
               | match goal with |- preserves _ (match ?c with _ => _ end) =>
                   destruct c end ].
Qed.

Lemma handleEvent_notError (ev : Event) : preserves notError (handleEvent ev).
Proof.
  destruct ev; cbn [handleEvent].
  - unfold startScreenShare. repeat preserves_step.
  - apply handleStop_notError.
  - unfold onSessionButtonClick. preserves_step; [preserves_step|].
    destruct (SessionStatus_eqb a IDLE);
      [apply startAISession_notError|apply handleStop_notError].
  - unfold onopen.
    repeat first [apply setStatus_notError; discriminate | preserves_step].
  - apply onmessage_notError.
  - unfold onerror.
    repeat first [apply handleStop_notError | preserves_step].
  - apply handleStop_notError.
  - unfold onended. repeat preserves_step.
  - unfold onMarkerTimeout. repeat preserves_step.
Qed.

(** Whatever happens, the status is never [ERROR]: the enum member of
    [types.ts] is not used by the controller. *)
Lemma status_never_ERROR (evs : list Event) :
  status (runEvents evs initialState) <> ERROR.
Proof.
  unfold runEvents.
  assert (H : notError initialState) by discriminate.
  revert H. generalize initialState.
  induction evs as [|ev evs IH]; intros s H; [exact H|].
  cbn [fold_left]. apply IH. apply handleEvent_notError. exact H.
Qed.

End NeverError.

(* ------------------------------------------------------------------ *)
(** ** Starting again *)

Section Restarts.










End Restarts.
